(** * roll_post.py: re-dating a blog post

    A verification development for [roll_post.py], the script that renames
    [_posts/YYYY-MM-DD-<title>.md] so that the file name carries today's
    date.  The script is embedded statement by statement: Python strings are
    lists of code points, the regular expression is a syntax tree run by a
    backtracking matcher, and the top-level statements are computations in a
    monad of exceptions over a world made of the clock, the disk and the
    trace of [os.rename] calls. *)

From Stdlib Require Import NArith Ascii String.
From stdpp Require Import gmap strings list.

Local Open Scope N_scope.
Local Open Scope list_scope.

(** ** Python strings *)

(** A Python [str] is a sequence of Unicode code points. *)
Abbreviation char := N (only parsing).
Abbreviation pystr := (list N) (only parsing).

(** The code points of a string literal of the source (all of them ASCII). *)
Fixpoint str (s : string) : pystr :=
  match s with
  | EmptyString => []
  | String a s' => N_of_ascii a :: str s'
  end.

Definition newline : char := 10.
Definition ascii_digit (c : char) : bool := (48 <=? c) && (c <=? 57).

(** [\d] in a [str] pattern accepts every code point of Unicode's general
    category Nd.  That table belongs to the interpreter, not to the script,
    so it is a parameter; what is used of it is that below U+0080 the decimal
    digits are exactly ['0'] to ['9']. *)
Class UnicodeData := {
  decimal_digit : char -> bool;
  decimal_digit_ascii : forall c, c < 128 -> decimal_digit c = ascii_digit c
}.

(** The table restricted to ASCII: enough to run the script on paths whose
    digits are ['0'] to ['9']. *)
Definition basic_latin : UnicodeData.
Proof.
  refine {| decimal_digit := ascii_digit |}.
  reflexivity.
Defined.

(** ** Regular expressions: the fragment of [re] the script uses *)

Inductive charset :=
| Lit (c : char)     (* one literal character *)
| Digit              (* \d *)
| AnyChar.           (* .  (no DOTALL flag: anything but a newline) *)

Inductive regex :=
| Literal (s : pystr)                    (* a run of literal characters *)
| Any (cs : charset)                     (* one character of the set *)
| Repeat (n : nat) (r : regex)           (* r{n} *)
| Star (cs : charset)                    (* cs*, greedy *)
| Group (name : option string) (r : regex)  (* (r) and (?P<name>r) *)
| Seq (r1 r2 : regex).

Declare Scope regex_scope.
Delimit Scope regex_scope with re.
Bind Scope regex_scope with regex.
Notation "r1 ;; r2" := (Seq r1 r2) (at level 100, right associativity) : regex_scope.

(** The groups a match has closed so far, most recent first. *)
Abbreviation groups := (list (option string * list N)) (only parsing).

Record match_object := {
  matched : pystr;     (* group 0 *)
  captures : groups
}.

Fixpoint strip_prefix (l s : pystr) : option pystr :=
  match l, s with
  | [], _ => Some s
  | a :: l', c :: s' => if a =? c then strip_prefix l' s' else None
  | _ :: _, [] => None
  end.

Section Matcher.
Context {U : UnicodeData}.

Definition accepts (cs : charset) (c : char) : bool :=
  match cs with
  | Lit a => a =? c
  | Digit => decimal_digit c
  | AnyChar => negb (c =? newline)
  end.

(** Greedy repetition of a one-character set: take as many characters as
    the set accepts, and give one back at a time while the rest of the
    pattern (the continuation [k], given the text taken and what is left)
    fails. *)
Fixpoint star {R} (cs : charset) (s : pystr)
    (k : pystr -> pystr -> option R) : option R :=
  match s with
  | c :: s' =>
      if accepts cs c then
        match star cs s' (fun m rest => k (c :: m) rest) with
        | Some r => Some r
        | None => k [] s
        end
      else k [] s
  | [] => k [] s
  end.

(** The backtracking matcher, in continuation-passing style: [exec r s g k]
    matches [r] at the head of [s] and hands the text matched, the rest of
    the input and the groups to [k]; [None] sends the caller to its next
    alternative. *)
Fixpoint exec {R} (r : regex) (s : pystr) (g : groups)
    (k : pystr -> pystr -> groups -> option R) : option R :=
  match r with
  | Literal l =>
      match strip_prefix l s with
      | Some s' => k l s' g
      | None => None
      end
  | Any cs =>
      match s with
      | c :: s' => if accepts cs c then k [c] s' g else None
      | [] => None
      end
  | Repeat n r' =>
      (fix rep (n : nat) (s : pystr) (g : groups)
           (k : pystr -> pystr -> groups -> option R) : option R :=
         match n with
         | O => k [] s g
         | S n' =>
             exec r' s g (fun m1 s1 g1 =>
               rep n' s1 g1 (fun m2 s2 g2 => k (m1 ++ m2) s2 g2))
         end) n s g k
  | Star cs => star cs s (fun m s' => k m s' g)
  | Group name r' => exec r' s g (fun m s' g' => k m s' ((name, m) :: g'))
  | Seq r1 r2 =>
      exec r1 s g (fun m1 s1 g1 =>
        exec r2 s1 g1 (fun m2 s2 g2 => k (m1 ++ m2) s2 g2))
  end.

(** [re.match(pattern, string)]: the pattern must match at the start of the
    string; nothing anchors it at the end. *)
Definition re_match (pattern : regex) (s : pystr) : option match_object :=
  exec pattern s [] (fun m _ g => Some {| matched := m; captures := g |}).

End Matcher.

(** [Match.groupdict()]: the named groups only; a group closed twice keeps
    its last text. *)
Definition groupdict (m : match_object) : gmap string (list N) :=
  list_to_map (omap (fun '(name, text) => (fun n => (n, text)) <$> name)
                    (captures m)).

(** Line 7, the pattern: the text [_posts/], the groups [(\d{4})], [(\d{2})]
    and [(\d{2})] with a [-] after each, the group named [title] around a
    greedy [.*], and [.md].  The dot before [md] is not escaped in the
    source, so it is the wildcard here as well. *)
Definition pattern : regex :=
  (Literal (str "_posts/") ;;
   Group None (Repeat 4 (Any Digit)) ;; Literal (str "-") ;;
   Group None (Repeat 2 (Any Digit)) ;; Literal (str "-") ;;
   Group None (Repeat 2 (Any Digit)) ;; Literal (str "-") ;;
   Group (Some "title"%string) (Star AnyChar) ;;
   Any AnyChar ;; Literal (str "md"))%re.


(** ** The clock *)

(** What [datetime.datetime.today()] gives, as far as [%Y-%m-%d] reads it. *)
Record date := { year : N; month : N; day : N }.

(** The fields of a date the clock can give.  Python keeps the year within
    1 .. 9999; from 1000 on, every platform's [%Y] prints it in four digits. *)
Definition date_ok (d : date) : Prop :=
  1000 <= year d <= 9999 /\ 1 <= month d <= 12 /\ 1 <= day d <= 31.

Definition digit_char (n : N) : char := 48 + n mod 10.

(** The [w] low-order decimal digits of [n], most significant first: [n]
    zero-padded to width [w] whenever [n < 10 ^ w]. *)
Fixpoint zero_padded (w : nat) (n : N) : pystr :=
  match w with
  | O => []
  | S w' => zero_padded w' (n / 10) ++ [digit_char n]
  end.

(** [today.strftime("%Y-%m-%d")]. *)
Definition strftime_Ymd (d : date) : pystr :=
  zero_padded 4 (year d) ++ str "-" ++ zero_padded 2 (month d) ++ str "-"
    ++ zero_padded 2 (day d).

(** ** The operating system and [os.rename] *)

(** What a directory entry is, as far as [os.rename] tells: a directory,
    of which only whether it is empty is kept, or anything else (a regular
    file, a link), with what it holds. *)
Inductive node :=
| File (data : list N)
| Dir (empty : bool).

Inductive platform := Unix | Windows.

(** The exceptions the script can meet.  Every failure of [os.rename] is an
    [OSError] or one of its subclasses ([FileNotFoundError],
    [FileExistsError], ...); the script tells none of them from another, and
    they are one exception here. *)
Inductive exn :=
| IndexError
| AttributeError
| KeyError
| OSError.

Inductive syscall :=
| SysRename (src dst : pystr).

Inductive result (A : Type) :=
| Return (a : A)
| Raise (e : exn).
Arguments Return {A} a.
Arguments Raise {A} e.

(** A path whose last character is neither a dot nor a slash: its last
    component is a name, not [.] or [..], and no slash trails it. *)
Definition names_entry (p : pystr) : bool :=
  match last p with
  | Some c => negb (c =? 46) && negb (c =? 47)
  | None => false
  end.

(** The operating system is not part of the script, and what its rename
    does depends on all of the file system: links, directories, mounts,
    permissions, limits on names.  So it is a parameter: the states of a file
    system; the entry a path written by the process names in a state, a link
    in last place not followed ([resolve]); whether two paths name one
    directory entry under one spelling, or two entries of one file on one
    mount ([same_file]); whether the file system is mounted for writing
    ([writable]); and the outcome of [os.rename] on a platform
    ([rename_on]).  An entry of [sys.argv] holds no NUL character, so the
    paths of the script always reach the system call.  What is used of the
    system are the rules the Python library reference and POSIX give:
    - a failure is an [OSError], and a source that names nothing fails;
    - on Windows a target that exists, other than the source, is refused;
    - on Unix, on a file system mounted for writing, the rename of an entry
      onto itself or onto another entry of the same file returns and does
      nothing; a directory and an entry that is not one never replace each
      other; a directory that is not empty is never replaced;
    - after a rename that returned, of a source onto another entry, the
      target names what the source named. *)
Class System := {
  filesystem : Type;
  resolve : filesystem -> pystr -> option node;
  same_file : filesystem -> pystr -> pystr -> bool;
  writable : filesystem -> bool;
  rename_on : platform -> pystr -> pystr -> filesystem -> result filesystem;
  same_file_refl : forall d p,
    is_Some (resolve d p) -> same_file d p p = true;
  same_file_resolve : forall d p q,
    same_file d p q = true ->
    is_Some (resolve d p) /\ resolve d q = resolve d p;
  rename_raises : forall os src dst d e,
    rename_on os src dst d = Raise e -> e = OSError;
  rename_missing : forall os src dst d,
    resolve d src = None -> rename_on os src dst d = Raise OSError;
  rename_windows_exists : forall src dst d,
    is_Some (resolve d dst) -> same_file d src dst = false ->
    rename_on Windows src dst d = Raise OSError;
  rename_unix_same : forall src dst d,
    writable d = true -> same_file d src dst = true ->
    names_entry src = true -> names_entry dst = true ->
    rename_on Unix src dst d = Return d;
  rename_unix_file_dir : forall src dst d data e,
    resolve d src = Some (File data) -> resolve d dst = Some (Dir e) ->
    rename_on Unix src dst d = Raise OSError;
  rename_unix_dir_file : forall src dst d e data,
    resolve d src = Some (Dir e) -> resolve d dst = Some (File data) ->
    rename_on Unix src dst d = Raise OSError;
  rename_unix_not_empty : forall src dst d,
    resolve d dst = Some (Dir false) -> same_file d src dst = false ->
    rename_on Unix src dst d = Raise OSError;
  rename_moves : forall os src dst d d',
    rename_on os src dst d = Return d' -> same_file d src dst = false ->
    resolve d' dst = resolve d src
}.

(** [d !! p]: what the path [p] names in the state [d]. *)
#[global] Instance filesystem_lookup {K : System}
    : Lookup (list N) node filesystem :=
  fun p d => resolve d p.

(** *** A small system to run the scenarios on

    One directory, [_posts], that exists and can be written, and in it
    regular files only, no two names for one file: a table from the paths of
    these files to their texts.  It is one system that keeps the rules
    above; the properties below are stated for every system, and only their
    instances at the scenarios are run on this one. *)

(** The length of a name in bytes, as the file system stores it. *)
Definition utf8_length (s : pystr) : N :=
  foldr (fun c n =>
           (if c <? 128 then 1 else if c <? 2048 then 2
            else if c <? 65536 then 3 else 4) + n) 0 s.

(** What can name a file in a directory: not empty, not [.] or [..], no
    slash, no NUL, at most 255 bytes. *)
Definition plain_name (name : pystr) : bool :=
  negb (bool_decide (name = []))
  && negb (bool_decide (name = str "."))
  && negb (bool_decide (name = str ".."))
  && forallb (fun c => negb (c =? 47) && negb (c =? 0)) name
  && (utf8_length name <=? 255).

(** The paths that can name a file of the small system: [_posts/] and a
    name.  Any other path would need a directory that is not there. *)
Definition plain_post (p : pystr) : bool :=
  match strip_prefix (str "_posts/") p with
  | Some name => plain_name name
  | None => false
  end.

Definition table_resolve (d : gmap (list N) (list N)) (p : pystr)
    : option node :=
  if plain_post p then File <$> d !! p else None.

Definition table_same_file (d : gmap (list N) (list N)) (p q : pystr)
    : bool :=
  bool_decide (p = q) && bool_decide (is_Some (table_resolve d p)).

(** Moving the text under [src] to [dst]. *)
Definition move (src dst : pystr) (text : list N)
    (d : gmap (list N) (list N)) : gmap (list N) (list N) :=
  <[dst := text]> (delete src d).

Definition table_rename (os : platform) (src dst : pystr)
    (d : gmap (list N) (list N)) : result (gmap (list N) (list N)) :=
  if plain_post src then
    match d !! src with
    | None => Raise OSError
    | Some text =>
        if negb (plain_post dst) then Raise OSError
        else if bool_decide (src = dst) then Return d
        else
          match d !! dst, os with
          | Some _, Windows => Raise OSError
          | _, _ => Return (move src dst text d)
          end
    end
  else Raise OSError.

Definition small_system : System.
Proof.
  refine {| filesystem := gmap (list N) (list N);
            resolve := table_resolve;
            same_file := table_same_file;
            writable := fun _ => true;
            rename_on := table_rename |}.
  - intros d p H. unfold table_same_file.
    rewrite andb_true_iff, !bool_decide_eq_true. auto.
  - intros d p q H. unfold table_same_file in H.
    rewrite andb_true_iff, !bool_decide_eq_true in H.
    destruct H as [<- H]. auto.
  - intros os src dst d e H. unfold table_rename in H.
    repeat match type of H with
           | match ?x with _ => _ end = _ => destruct x
           | (if ?b then _ else _) = _ => destruct b
           end; try discriminate; injection H as <-; reflexivity.
  - intros os src dst d H. unfold table_resolve in H. unfold table_rename.
    destruct (plain_post src); [|reflexivity].
    destruct (d !! src); [discriminate|reflexivity].
  - intros src dst d Hdst Hsame.
    assert (src <> dst) as E.
    { intros ->. unfold table_same_file in Hsame.
      rewrite andb_false_iff, !bool_decide_eq_false in Hsame.
      destruct Hsame as [H|H]; [congruence|contradiction]. }
    destruct Hdst as [t Ht]. unfold table_resolve in Ht.
    unfold table_rename.
    destruct (plain_post src); [|reflexivity].
    destruct (d !! src) as [text|]; [|reflexivity].
    destruct (plain_post dst); [|discriminate]. simpl.
    rewrite bool_decide_eq_false_2 by exact E.
    destruct (d !! dst); [reflexivity|discriminate].
  - intros src dst d _ H _ _. unfold table_same_file in H.
    rewrite andb_true_iff, !bool_decide_eq_true in H.
    destruct H as [<- [n Hn]]. unfold table_resolve in Hn.
    unfold table_rename.
    destruct (plain_post src); [|discriminate].
    destruct (d !! src); [|discriminate]. simpl.
    now rewrite bool_decide_eq_true_2.
  - intros src dst d data e _ Hd. unfold table_resolve in Hd.
    destruct (plain_post dst); [|discriminate].
    destruct (d !! dst); discriminate.
  - intros src dst d e data Hs _. unfold table_resolve in Hs.
    destruct (plain_post src); [|discriminate].
    destruct (d !! src); discriminate.
  - intros src dst d Hd _. unfold table_resolve in Hd.
    destruct (plain_post dst); [|discriminate].
    destruct (d !! dst); discriminate.
  - intros os src dst d d' H Hsame.
    destruct (table_resolve d src) as [n|] eqn:Hsrc.
    + assert (src <> dst) as E.
      { intros ->. unfold table_same_file in Hsame.
        rewrite andb_false_iff, !bool_decide_eq_false in Hsame.
        destruct Hsame as [H'|H']; [congruence|]. apply H'.
        rewrite Hsrc. eauto. }
      unfold table_resolve in *. unfold table_rename in H.
      destruct (plain_post src); [|discriminate].
      destruct (d !! src) as [text|]; [|discriminate].
      destruct (plain_post dst); [|discriminate]. simpl in H.
      rewrite bool_decide_eq_false_2 in H by exact E.
      assert (d' = move src dst text d) as ->
        by (destruct (d !! dst), os; congruence).
      unfold move. now rewrite lookup_insert_eq.
    + unfold table_resolve in Hsrc. unfold table_rename in H.
      destruct (plain_post src); [|discriminate].
      destruct (d !! src); discriminate.
Defined.

(** ** The world and the interpreter's monad *)

Section World.
Context {K : System}.

(** The world the script runs in: the platform, the local date of the clock,
    the state of the file system, and the system calls made so far, most
    recent first. *)
Record world := {
  os_name : platform;
  clock : date;
  disk : filesystem;
  trace : list syscall
}.

(** Computations: exceptions over the world. *)
Definition py (A : Type) : Type := world -> result A * world.

Definition ret {A} (a : A) : py A := fun w => (Return a, w).
Definition raise {A} (e : exn) : py A := fun w => (Raise e, w).
Definition bind {A B} (m : py A) (f : A -> py B) : py B :=
  fun w =>
    match m w with
    | (Return a, w') => f a w'
    | (Raise e, w') => (Raise e, w')
    end.

Definition with_disk (d : filesystem) (w : world) : world :=
  {| os_name := os_name w; clock := clock w; disk := d; trace := trace w |}.

Definition log (c : syscall) (w : world) : world :=
  {| os_name := os_name w; clock := clock w; disk := disk w;
     trace := c :: trace w |}.


(** [os.rename(src, dst)]: one system call, whose failure is raised. *)
Definition os_rename (src dst : pystr) : py unit :=
  fun w =>
    let w := log (SysRename src dst) w in
    match rename_on (os_name w) src dst (disk w) with
    | Return d => (Return tt, with_disk d w)
    | Raise e => (Raise e, w)
    end.

Definition datetime_today : py date := fun w => (Return (clock w), w).

(** ** The script *)

(** [sys.argv[i]] *)
Definition sys_argv (argv : list (list N)) (i : nat) : py (list N) :=
  match argv !! i with
  | Some a => ret a
  | None => raise IndexError
  end.

(** [parts.groupdict()] where [parts] may be [None] *)
Definition call_groupdict (parts : option match_object)
    : py (gmap string (list N)) :=
  match parts with
  | Some m => ret (groupdict m)
  | None => raise AttributeError
  end.

(** [parts[key]] *)
Definition getitem (parts : gmap string (list N)) (key : string)
    : py (list N) :=
  match parts !! key with
  | Some v => ret v
  | None => raise KeyError
  end.

End World.

Notation "x <- m ;;; k" := (bind m (fun x => k))
  (at level 100, m at next level, right associativity,
   format "'[v' x  <-  m  ;;; '/' k ']'").

(** Line 10, the f-string: [_posts/], today's date, [-], the title, [.md]. *)
Definition new_post (today : date) (title : pystr) : pystr :=
  str "_posts/" ++ strftime_Ymd today ++ str "-" ++ title ++ str ".md".

Section Script.
Context {U : UnicodeData} {K : System}.

(** Lines 6 to 12 of [roll_post.py], in order. *)
Definition roll_post (argv : list (list N)) : py unit :=
  post <- sys_argv argv 1 ;;;
  parts <- ret (re_match pattern post) ;;;
  parts <- call_groupdict parts ;;;
  today <- datetime_today ;;;
  title <- getitem parts "title" ;;;
  os_rename post (new_post today title).

End Script.

(** The exit status of the interpreter: 0 when the script runs to its end,
    1 when an exception reaches the top level. *)
Definition exit_status {A} (r : result A) : Z :=
  match r with
  | Return _ => 0%Z
  | Raise _ => 1%Z
  end.


(** ** Paths of the expected shape *)

(** [_posts/Y-M-D-rest] *)
Definition dated (Y M D rest : list N) : list N :=
  str "_posts/" ++ Y ++ str "-" ++ M ++ str "-" ++ D ++ str "-" ++ rest.

Definition rename_target (c : syscall) : list N :=
  match c with
  | SysRename _ dst => dst
  end.

Section Shapes.
Context {U : UnicodeData}.

(** A group of exactly [n] characters that [\d] accepts. *)
Definition digit_group (n : nat) (s : list N) : Prop :=
  length s = n /\ Forall (fun c => decimal_digit c = true) s.

(** What is left of the pattern once [.*] has taken [m] and [s'] remains:
    one more character that is not a newline, then [md]. *)
Definition after_title (Y M D m s' : list N) : option match_object :=
  match s' with
  | c :: s'' =>
      if accepts AnyChar c then
        match strip_prefix (str "md") s'' with
        | Some _ =>
            Some {| matched := dated Y M D (m ++ c :: str "md");
                    captures := [(Some "title"%string, m); (None, D);
                                 (None, M); (None, Y)] |}
        | None => None
        end
      else None
  | [] => None
  end.

End Shapes.

(** ** The scenarios of the specification *)

Definition june_15 : date := {| year := 2024; month := 6; day := 15 |}.
Definition june_16 : date := {| year := 2024; month := 6; day := 16 |}.

(** A site of the small system on a given platform, day and table of files,
    before the script runs. *)
Definition site (os : platform) (today : date)
    (files : gmap (list N) (list N)) : @world small_system :=
  @Build_world small_system os today files [].

Definition hello_world : list N := str "_posts/2023-01-01-hello-world.md".
Definition hello_world_rolled : list N := str "_posts/2024-06-15-hello-world.md".

(** The match on [_posts/2023-01-01-hello-world.md]. *)
Definition hello_world_match : match_object :=
  {| matched := hello_world;
     captures := [(Some "title"%string, str "hello-world");
                  (None, str "01"); (None, str "01"); (None, str "2023")] |}.

(** ** Facts about the matcher and the script *)

Section Facts.
Context {U : UnicodeData} {K : System}.

(** *** Literal prefixes *)

Lemma strip_prefix_app l s : strip_prefix l (l ++ s) = Some s.
Proof.
  induction l as [|a l IH]; simpl; [reflexivity|].
  rewrite N.eqb_refl. exact IH.
Qed.

Lemma strip_prefix_Some l s s' : strip_prefix l s = Some s' -> s = l ++ s'.
Proof.
  revert s. induction l as [|a l IH]; intros [|c s]; simpl; try congruence.
  destruct (N.eqb_spec a c) as [->|]; [|discriminate].
  intros H. f_equal. auto.
Qed.

(** *** The greedy star *)

Lemma star_ext {R} cs s (k1 k2 : list N -> list N -> option R) :
  (forall m s', k1 m s' = k2 m s') -> star cs s k1 = star cs s k2.
Proof.
  revert k1 k2. induction s as [|c s IH]; intros k1 k2 E; simpl; [apply E|].
  rewrite (IH _ (fun m rest => k2 (c :: m) rest)) by (intros; apply E).
  now rewrite E.
Qed.

(** Once the star has taken [a], a success further on is the answer: the
    shorter alternatives are never tried. *)
Lemma star_app_accepts {R} cs a b (k : list N -> list N -> option R) r :
  Forall (fun c => accepts cs c = true) a ->
  star cs b (fun m s' => k (a ++ m) s') = Some r ->
  star cs (a ++ b) k = Some r.
Proof.
  intros Ha. revert k. induction Ha as [|c a Hc Ha IH]; intros k H; [exact H|].
  simpl. rewrite Hc. rewrite (IH (fun m rest => k (c :: m) rest) H).
  reflexivity.
Qed.

(** A success of the star is a success of the continuation on some split of
    the input whose first part the set accepts throughout. *)
Lemma star_Some_inv {R} cs s (k : list N -> list N -> option R) r :
  star cs s k = Some r ->
  exists m s', s = m ++ s' /\ Forall (fun c => accepts cs c = true) m /\
               k m s' = Some r.
Proof.
  revert k. induction s as [|c s IH]; intros k H; simpl in H.
  - exists [], []. auto.
  - destruct (accepts cs c) eqn:Hc.
    + destruct (star cs s (fun m rest => k (c :: m) rest)) as [r'|] eqn:Hs.
      * injection H as ->.
        apply (IH (fun m rest => k (c :: m) rest)) in Hs
          as (m & s' & -> & Hm & Hk).
        exists (c :: m), s'. auto.
      * exists [], (c :: s). auto.
    + exists [], (c :: s). auto.
Qed.

(** *** The pattern of line 7 *)

Ltac match_step H :=
  match type of H with
  | match strip_prefix ?l ?s with _ => _ end = Some _ =>
      let E := fresh "E" in
      destruct (strip_prefix l s) eqn:E;
      [apply strip_prefix_Some in E; subst|discriminate]
  | match ?s with [] => _ | _ :: _ => _ end = Some _ =>
      destruct s; [discriminate|]
  | (if ?b then _ else _) = Some _ =>
      let E := fresh "E" in destruct b eqn:E; [|discriminate]
  end.

(** On a path that starts with [_posts/] and the three digit groups, the
    match is decided by the star on what follows the third [-]. *)
Lemma re_match_dated Y M D rest :
  digit_group 4 Y -> digit_group 2 M -> digit_group 2 D ->
  re_match pattern (dated Y M D rest) = star AnyChar rest (after_title Y M D).
Proof.
  intros [LY HY] [LM HM] [LD HD].
  destruct Y as [|y1 [|y2 [|y3 [|y4 [|]]]]]; try discriminate.
  destruct M as [|m1 [|m2 [|]]]; try discriminate.
  destruct D as [|d1 [|d2 [|]]]; try discriminate.
  repeat match goal with H : Forall _ (_ :: _) |- _ => inversion_clear H end.
  unfold re_match, pattern, dated. cbn [exec].
  repeat (first [ rewrite strip_prefix_app
                | match goal with H : decimal_digit _ = true |- _ => rewrite H end ];
          cbn [app accepts]).
  apply star_ext. intros m s'. unfold after_title. cbn [accepts].
  destruct s' as [|c s'']; [reflexivity|].
  destruct (negb (c =? newline)); [|reflexivity].
  destruct (strip_prefix (str "md") s''); reflexivity.
Qed.

(** Only such paths match. *)
Lemma re_match_Some_dated post m :
  re_match pattern post = Some m ->
  exists Y M D rest,
    post = dated Y M D rest /\
    digit_group 4 Y /\ digit_group 2 M /\ digit_group 2 D.
Proof.
  unfold re_match, pattern. cbn [exec accepts]. intros H.
  repeat match_step H.
  eexists [_; _; _; _], [_; _], [_; _], _.
  split; [reflexivity|].
  unfold digit_group. repeat split; repeat constructor; assumption.
Qed.

Lemma accepts_AnyChar c : accepts AnyChar c = true <-> c <> newline.
Proof.
  simpl. destruct (N.eqb_spec c newline); simpl; split; congruence.
Qed.

(** What a match looks like: the title is the text between the third [-]
    and the place where the wildcard and [md] were found, it holds no
    newline, and it is what the group [title] captured. *)
Lemma re_match_Some post m :
  re_match pattern post = Some m ->
  exists Y M D title c tail,
    post = dated Y M D (title ++ c :: str "md" ++ tail) /\
    digit_group 4 Y /\ digit_group 2 M /\ digit_group 2 D /\
    Forall (fun x => x <> newline) title /\ c <> newline /\
    m = {| matched := dated Y M D (title ++ c :: str "md");
           captures := [(Some "title"%string, title); (None, D);
                        (None, M); (None, Y)] |}.
Proof.
  intros H.
  destruct (re_match_Some_dated _ _ H) as (Y & M & D & rest & -> & HY & HM & HD).
  rewrite re_match_dated in H by assumption.
  apply star_Some_inv in H as (title & s' & -> & Ht & Hk).
  unfold after_title in Hk.
  destruct s' as [|c s'']; [discriminate|].
  destruct (accepts AnyChar c) eqn:Hc; [|discriminate].
  destruct (strip_prefix (str "md") s'') as [tail|] eqn:E; [|discriminate].
  apply strip_prefix_Some in E. subst s''. injection Hk as <-.
  exists Y, M, D, title, c, tail.
  split; [reflexivity|]. do 3 (split; [assumption|]).
  split; [|split; [now apply accepts_AnyChar | reflexivity]].
  eapply Forall_impl; [exact Ht|]. intros x. apply accepts_AnyChar.
Qed.

(** A title without a newline, followed by [.md] and nothing else, is
    captured whole. *)
Lemma re_match_title Y M D title :
  digit_group 4 Y -> digit_group 2 M -> digit_group 2 D ->
  Forall (fun x => x <> newline) title ->
  re_match pattern (dated Y M D (title ++ str ".md")) =
    Some {| matched := dated Y M D (title ++ str ".md");
            captures := [(Some "title"%string, title); (None, D);
                         (None, M); (None, Y)] |}.
Proof.
  intros HY HM HD Ht. rewrite re_match_dated by assumption.
  apply star_app_accepts.
  - eapply Forall_impl; [exact Ht|]. intros x. apply accepts_AnyChar.
  - cbn. rewrite app_nil_r. reflexivity.
Qed.

Lemma groupdict_title t D M Y w :
  groupdict {| matched := w;
               captures := [(Some "title"%string, t); (None, D);
                            (None, M); (None, Y)] |} !! "title"%string
  = Some t.
Proof. unfold groupdict. cbn. apply lookup_insert_eq. Qed.

(** Every match has a group [title]: line 10 never raises [KeyError]. *)
Lemma re_match_groupdict post m :
  re_match pattern post = Some m -> is_Some (groupdict m !! "title"%string).
Proof.
  intros H. apply re_match_Some in H as (Y & M & D & t & c & tl & _ & _ & _ & _ & _ & _ & ->).
  rewrite groupdict_title. eauto.
Qed.

(** ASCII digits are digits whatever the rest of the table says. *)
Lemma digit_group_ascii n s :
  length s = n -> forallb ascii_digit s = true -> digit_group n s.
Proof.
  intros L H. split; [exact L|].
  apply Forall_forall. intros c Hc.
  rewrite forallb_forall in H. specialize (H c).
  rewrite <- list_elem_of_In in H. specialize (H Hc).
  rewrite decimal_digit_ascii; [exact H|].
  unfold ascii_digit in H. apply andb_true_iff in H as [_ H].
  apply N.leb_le in H. lia.
Qed.

(** *** The script, statement by statement *)

Lemma roll_post_run prog post args w :
  roll_post (prog :: post :: args) w =
    match re_match pattern post with
    | Some m =>
        match groupdict m !! "title"%string with
        | Some title => os_rename post (new_post (clock w) title) w
        | None => (Raise KeyError, w)
        end
    | None => (Raise AttributeError, w)
    end.
Proof.
  unfold roll_post, bind, sys_argv, ret. simpl.
  destruct (re_match pattern post) as [m|]; simpl; [|reflexivity].
  unfold getitem. destruct (groupdict m !! "title"%string); reflexivity.
Qed.

Lemma roll_post_no_argument argv w :
  (length argv <= 1)%nat -> roll_post argv w = (Raise IndexError, w).
Proof.
  intros H. destruct argv as [|prog [|post args]]; simpl in H; try lia;
    reflexivity.
Qed.

End Facts.

(** *** Dates *)

Lemma zero_padded_length w n : length (zero_padded w n) = w.
Proof.
  revert n. induction w as [|w IH]; intros n; simpl; [reflexivity|].
  rewrite length_app, IH. simpl. lia.
Qed.

Lemma digit_char_inj a b : digit_char a = digit_char b -> a mod 10 = b mod 10.
Proof. unfold digit_char. lia. Qed.

Lemma zero_padded_inj w a b :
  zero_padded w a = zero_padded w b ->
  a mod 10 ^ N.of_nat w = b mod 10 ^ N.of_nat w.
Proof.
  revert a b. induction w as [|w IH]; intros a b H.
  - simpl. now rewrite !N.mod_1_r.
  - simpl in H. apply app_inj_tail in H as [H1 H2].
    apply IH in H1. apply digit_char_inj in H2.
    rewrite Nat2N.inj_succ, N.pow_succ_r'.
    rewrite !N.Div0.mod_mul_r. congruence.
Qed.

(** Two dates of the clock that print alike are the same date. *)
Lemma strftime_Ymd_inj d1 d2 :
  date_ok d1 -> date_ok d2 -> strftime_Ymd d1 = strftime_Ymd d2 -> d1 = d2.
Proof.
  intros (Hy1 & Hm1 & Hd1) (Hy2 & Hm2 & Hd2) H. unfold strftime_Ymd in H.
  apply app_inj_1 in H as [Hy H]; [|now rewrite !zero_padded_length].
  apply app_inv_head in H.
  apply app_inj_1 in H as [Hm Hd]; [|now rewrite !zero_padded_length].
  apply app_inv_head in Hd.
  apply zero_padded_inj in Hy, Hm, Hd.
  rewrite !N.mod_small in Hy, Hm, Hd by (simpl; lia).
  destruct d1, d2; simpl in *; congruence.
Qed.

Lemma new_post_inj d1 d2 title :
  date_ok d1 -> date_ok d2 -> new_post d1 title = new_post d2 title -> d1 = d2.
Proof.
  intros H1 H2 H. unfold new_post in H. apply app_inv_head in H.
  rewrite !(app_assoc (strftime_Ymd _)) in H.
  do 2 apply app_inv_tail in H. now apply strftime_Ymd_inj.
Qed.


Section Runs.
Context {U : UnicodeData} {K : System}.

(** *** [os.rename] *)

Lemma os_rename_trace src dst w :
  trace (os_rename src dst w).2 = SysRename src dst :: trace w.
Proof.
  unfold os_rename. simpl.
  destruct (rename_on _ _ _ _); reflexivity.
Qed.

Lemma os_rename_result src dst w :
  (os_rename src dst w).1 =
    match rename_on (os_name w) src dst (disk w) with
    | Return _ => Return tt
    | Raise e => Raise e
    end.
Proof.
  unfold os_rename. simpl. destruct (rename_on _ _ _ _); reflexivity.
Qed.


Lemma star_fmap {R R'} (f : R -> R') cs s (k : list N -> list N -> option R) :
  f <$> star cs s k = star cs s (fun m s' => f <$> k m s').
Proof.
  revert k. induction s as [|c s IH]; intros k; simpl; [reflexivity|].
  destruct (accepts cs c); [|reflexivity].
  rewrite <- (IH (fun m rest => k (c :: m) rest)).
  destruct (star cs s _); reflexivity.
Qed.

(** The dictionary of a match does not remember the digit groups. *)
Lemma groupdict_re_match_dated Y M D Y' M' D' rest :
  digit_group 4 Y -> digit_group 2 M -> digit_group 2 D ->
  digit_group 4 Y' -> digit_group 2 M' -> digit_group 2 D' ->
  groupdict <$> re_match pattern (dated Y M D rest) =
  groupdict <$> re_match pattern (dated Y' M' D' rest).
Proof.
  intros. rewrite !re_match_dated by assumption. rewrite !star_fmap.
  apply star_ext. intros m s'. unfold after_title.
  destruct s' as [|c s'']; [reflexivity|].
  destruct (accepts AnyChar c); [|reflexivity].
  destruct (strip_prefix (str "md") s''); reflexivity.
Qed.

Lemma roll_post_run_dict prog post args w :
  roll_post (prog :: post :: args) w =
    match groupdict <$> re_match pattern post with
    | Some parts =>
        match parts !! "title"%string with
        | Some title => os_rename post (new_post (clock w) title) w
        | None => (Raise KeyError, w)
        end
    | None => (Raise AttributeError, w)
    end.
Proof. rewrite roll_post_run. destruct (re_match pattern post); reflexivity. Qed.

(** The run on a path that matches: one call of [os.rename]. *)
Lemma roll_post_matched prog post args w m :
  re_match pattern post = Some m ->
  exists title,
    groupdict m !! "title"%string = Some title /\
    roll_post (prog :: post :: args) w =
      os_rename post (new_post (clock w) title) w.
Proof.
  intros H. destruct (re_match_groupdict _ _ H) as [title Ht].
  exists title. split; [exact Ht|].
  rewrite roll_post_run, H, Ht. reflexivity.
Qed.

Lemma roll_post_title prog args Y M D title w :
  digit_group 4 Y -> digit_group 2 M -> digit_group 2 D ->
  newline ∉ title ->
  roll_post (prog :: dated Y M D (title ++ str ".md") :: args) w =
    os_rename (dated Y M D (title ++ str ".md")) (new_post (clock w) title) w.
Proof.
  intros HY HM HD Ht. rewrite roll_post_run.
  rewrite re_match_title, groupdict_title; [reflexivity|assumption..|].
  apply Forall_forall. intros x Hx ->. contradiction.
Qed.

Lemma roll_post_unmatched prog post args w :
  re_match pattern post = None ->
  roll_post (prog :: post :: args) w = (Raise AttributeError, w).
Proof. intros H. rewrite roll_post_run, H. reflexivity. Qed.

End Runs.

(** ** The properties of the specification *)

Section Claims.
Context {U : UnicodeData} {K : System}.

(** C1, as amended: for every path [_posts/YYYY-MM-DD-<title>.md] whose
    date groups are four, two and two digits and whose title holds no newline
    character, the script's one effect is [os.rename] of that path to
    [_posts/<today>-<title>.md], where [<today>] is the date of the clock
    printed by [%Y-%m-%d]. *)
Theorem roll_post_redates prog args Y M D title w :
  digit_group 4 Y -> digit_group 2 M -> digit_group 2 D ->
  newline ∉ title ->
  roll_post (prog :: dated Y M D (title ++ str ".md") :: args) w =
    os_rename (dated Y M D (title ++ str ".md"))
      (str "_posts/" ++ strftime_Ymd (clock w) ++ str "-" ++ title
         ++ str ".md") w.
Proof. apply roll_post_title. Qed.

(** C2, at the input that breaks it: [_posts/2023-01-01-helloxmd] has no
    [.md] suffix, yet the pattern accepts it (the wildcard before [md] takes
    the [x]) and the script renames it to [_posts/<today>-hello.md]. *)
Theorem suffix_not_required prog args w :
  roll_post (prog :: str "_posts/2023-01-01-helloxmd" :: args) w =
    os_rename (str "_posts/2023-01-01-helloxmd")
      (str "_posts/" ++ strftime_Ymd (clock w) ++ str "-hello.md") w.
Proof.
  rewrite roll_post_run.
  change (str "_posts/2023-01-01-helloxmd")
    with (dated (str "2023") (str "01") (str "01") (str "helloxmd")).
  rewrite re_match_dated by (apply digit_group_ascii; reflexivity).
  change (star AnyChar (str "helloxmd")
            (after_title (str "2023") (str "01") (str "01")))
    with (Some {| matched := str "_posts/2023-01-01-helloxmd";
                  captures := [(Some "title"%string, str "hello");
                               (None, str "01"); (None, str "01");
                               (None, str "2023")] |}).
  cbv beta iota. rewrite groupdict_title. reflexivity.
Qed.


(** C4: a path that does not begin with [_posts/] does not match; the
    script ends in [AttributeError] with the world (disk and trace of system
    calls) as it was: nothing is renamed. *)
Theorem wrong_prefix_rejected prog post args w :
  ~ (str "_posts/" `prefix_of` post) ->
  roll_post (prog :: post :: args) w = (Raise AttributeError, w).
Proof.
  intros H. apply roll_post_unmatched.
  destruct (re_match pattern post) as [m|] eqn:E; [|reflexivity].
  apply re_match_Some_dated in E as (Y & M & D & rest & -> & _).
  exfalso. apply H. unfold dated. eexists. reflexivity.
Qed.

(** C5: whatever the group [title] captured is what the new name carries
    between [_posts/<today>-] and [.md]; it is the text of the path after the
    third [-], up to the wildcard and [md] the match ended on; and when the
    path is a newline-free title followed by [.md] (hyphens or not), it is
    that title. *)
Theorem title_passed_through prog post args m w :
  re_match pattern post = Some m ->
  exists title,
    groupdict m !! "title"%string = Some title /\
    (exists Y M D c tail,
       post = dated Y M D (title ++ c :: str "md" ++ tail)) /\
    (forall Y M D t,
       post = dated Y M D (t ++ str ".md") ->
       digit_group 4 Y -> digit_group 2 M -> digit_group 2 D ->
       newline ∉ t -> title = t) /\
    roll_post (prog :: post :: args) w =
      os_rename post
        (str "_posts/" ++ strftime_Ymd (clock w) ++ str "-" ++ title
           ++ str ".md") w.
Proof.
  intros H.
  destruct (roll_post_matched prog post args w m H) as (title & Ht & Hrun).
  exists title. split; [exact Ht|]. split; [|split; [|exact Hrun]].
  - destruct (re_match_Some _ _ H)
      as (Y & M & D & t & c & tl & -> & _ & _ & _ & _ & _ & ->).
    rewrite groupdict_title in Ht. injection Ht as ->. eauto 6.
  - intros Y M D t -> HY HM HD Hn.
    rewrite re_match_title in H; [|assumption..|].
    + injection H as <-. rewrite groupdict_title in Ht. congruence.
    + apply Forall_forall. intros x Hx ->. contradiction.
Qed.

(** C6: on a path that matches, two runs under two different dates of the
    clock call [os.rename] with two different new names. *)
Theorem different_days_different_names prog post args m w1 w2 :
  re_match pattern post = Some m ->
  date_ok (clock w1) -> date_ok (clock w2) -> clock w1 <> clock w2 ->
  exists n1 n2,
    trace (roll_post (prog :: post :: args) w1).2
      = SysRename post n1 :: trace w1 /\
    trace (roll_post (prog :: post :: args) w2).2
      = SysRename post n2 :: trace w2 /\
    n1 <> n2.
Proof.
  intros H H1 H2 Hne.
  destruct (roll_post_matched prog post args w1 m H) as (t1 & Ht1 & Hr1).
  destruct (roll_post_matched prog post args w2 m H) as (t2 & Ht2 & Hr2).
  assert (t2 = t1) as -> by congruence.
  exists (new_post (clock w1) t1), (new_post (clock w2) t1).
  rewrite Hr1, Hr2, !os_rename_trace. split; [reflexivity|].
  split; [reflexivity|].
  intros E. apply Hne. eapply new_post_inj; eassumption.
Qed.

(** C7: the exit status is 0 exactly when there is an argument, the pattern
    matched it and [os.rename] succeeded; in every other case it is 1. *)
Theorem exit_status_zero_iff argv w :
  (exit_status (roll_post argv w).1 = 0%Z <->
   exists post m title d',
     argv !! 1%nat = Some post /\
     re_match pattern post = Some m /\
     groupdict m !! "title"%string = Some title /\
     rename_on (os_name w) post (new_post (clock w) title) (disk w)
       = Return d') /\
  (exit_status (roll_post argv w).1 = 0%Z \/
   exit_status (roll_post argv w).1 = 1%Z).
Proof.
  split; [|destruct (roll_post argv w).1; auto].
  destruct argv as [|prog [|post args]].
  - split; [discriminate|]. intros (? & ? & ? & ? & ? & _). discriminate.
  - split; [discriminate|]. intros (? & ? & ? & ? & ? & _). discriminate.
  - rewrite roll_post_run.
    destruct (re_match pattern post) as [m|] eqn:Hm.
    + destruct (re_match_groupdict _ _ Hm) as [title Ht]. rewrite Ht.
      rewrite os_rename_result.
      destruct (rename_on _ _ _ _) as [d'|e] eqn:Hr; simpl.
      * split; [|reflexivity]. intros _. exists post, m, title, d'. auto.
      * split; [discriminate|].
        intros (p & m' & t' & d' & [= <-] & Hm' & Ht' & Hr').
        congruence.
    + simpl. split; [discriminate|].
      intros (p & m' & t' & d' & [= <-] & Hm' & _). congruence.
Qed.

(** C8: with no positional argument, reading [sys.argv[1]] raises
    [IndexError]; the world is as it was, so no match was tried and nothing
    was renamed. *)
Theorem no_argument argv w :
  (length argv <= 1)%nat -> roll_post argv w = (Raise IndexError, w).
Proof. apply roll_post_no_argument. Qed.

(** C9: two paths that differ only in their digit groups, whatever digits
    these are, are renamed to the same new name under the same clock: the
    targets of the [os.rename] calls of the two runs are the same. *)
Theorem old_date_ignored prog args Y M D Y' M' D' rest w :
  digit_group 4 Y -> digit_group 2 M -> digit_group 2 D ->
  digit_group 4 Y' -> digit_group 2 M' -> digit_group 2 D' ->
  rename_target <$> trace (roll_post (prog :: dated Y M D rest :: args) w).2 =
  rename_target <$> trace (roll_post (prog :: dated Y' M' D' rest :: args) w).2.
Proof.
  intros. rewrite !roll_post_run_dict.
  rewrite (groupdict_re_match_dated Y M D Y' M' D') by assumption.
  destruct (groupdict <$> re_match pattern (dated Y' M' D' rest)) as [parts|];
    [|reflexivity].
  destruct (parts !! "title"%string); [|reflexivity].
  rewrite !os_rename_trace. reflexivity.
Qed.

(** C10: [_posts/YYYY-MM-DD-.md] matches with the empty string as its
    title, and the script calls [os.rename] with the new name
    [_posts/<today>-.md]. *)
Theorem empty_title_accepted prog args Y M D w :
  digit_group 4 Y -> digit_group 2 M -> digit_group 2 D ->
  (exists m,
     re_match pattern (dated Y M D (str ".md")) = Some m /\
     groupdict m !! "title"%string = Some []) /\
  roll_post (prog :: dated Y M D (str ".md") :: args) w =
    os_rename (dated Y M D (str ".md"))
      (str "_posts/" ++ strftime_Ymd (clock w) ++ str "-.md") w.
Proof.
  intros HY HM HD. split.
  - eexists. split.
    + apply (re_match_title Y M D []); auto.
    + apply groupdict_title.
  - apply (roll_post_title prog args Y M D []); auto. apply not_elem_of_nil.
Qed.

End Claims.

(** ** The scenarios of the specification, run on the model *)

Lemma ascii_digits n (s : string) :
  length (str s) = n -> forallb ascii_digit (str s) = true ->
  forall U : UnicodeData, digit_group n (str s).
Proof. intros L H U. now apply digit_group_ascii. Qed.

Lemma not_newline_in (t : list N) :
  forallb (fun c => negb (c =? newline)) t = true -> newline ∉ t.
Proof.
  intros H Hin. rewrite forallb_forall in H.
  apply list_elem_of_In, H in Hin. now rewrite N.eqb_refl in Hin.
Qed.

(** Scenario 1 on a Unix disk that holds the post: afterwards the disk holds
    the same text under the new name, and nothing under the old one. *)
Example scenario_1_disk :
  disk (roll_post (U := basic_latin) [str "roll_post.py"; hello_world]
          (site Unix june_15 {[ hello_world := str "text" ]})).2
  = {[ hello_world_rolled := str "text" ]}.
Proof. vm_compute. reflexivity. Qed.

(** C1 at scenario 1: [_posts/2023-01-01-hello-world.md] on 2024-06-15. *)
Lemma roll_post_redates_scenario_1 :
  forallb ascii_digit (str "20230101") = true /\
  (newline ∉ str "hello-world") /\
  roll_post (U := basic_latin) [str "roll_post.py"; hello_world]
      (site Unix june_15 {[ hello_world := str "text" ]})
  = os_rename hello_world hello_world_rolled
      (site Unix june_15 {[ hello_world := str "text" ]}).
Proof.
  split; [reflexivity|].
  split; [apply not_newline_in; reflexivity|].
  apply (@roll_post_redates basic_latin small_system (str "roll_post.py") []
           (str "2023") (str "01") (str "01") (str "hello-world")
           (site Unix june_15 {[ hello_world := str "text" ]})).
  - apply ascii_digits; reflexivity.
  - apply ascii_digits; reflexivity.
  - apply ascii_digits; reflexivity.
  - apply not_newline_in; reflexivity.
Defined.

(** C1 as first stated fails on a title that holds a newline: the path
    below has the shape [_posts/YYYY-MM-DD-<title>.md], the star stops at the
    newline, no [.md] follows there, and the script ends in [AttributeError]
    instead of calling [os.rename]. *)
Lemma newline_title_not_redated :
  dated (str "2023") (str "01") (str "01")
    ((str "a" ++ newline :: str "b") ++ str ".md")
  = str "_posts/2023-01-01-a" ++ newline :: str "b.md" /\
  forall (U : UnicodeData) (K : System) (w : world),
    roll_post [str "roll_post.py";
               str "_posts/2023-01-01-a" ++ newline :: str "b.md"] w
    = (Raise AttributeError, w) /\
    roll_post [str "roll_post.py";
               str "_posts/2023-01-01-a" ++ newline :: str "b.md"] w
    <> os_rename (str "_posts/2023-01-01-a" ++ newline :: str "b.md")
         (str "_posts/" ++ strftime_Ymd (clock w) ++ str "-"
            ++ (str "a" ++ newline :: str "b") ++ str ".md") w.
Proof.
  split; [reflexivity|]. intros U K w.
  assert (roll_post [str "roll_post.py";
                     str "_posts/2023-01-01-a" ++ newline :: str "b.md"] w
          = (Raise AttributeError, w)) as E.
  { apply roll_post_unmatched.
    change (str "_posts/2023-01-01-a" ++ newline :: str "b.md")
      with (dated (str "2023") (str "01") (str "01")
              (str "a" ++ newline :: str "b.md")).
    rewrite re_match_dated by (apply ascii_digits; reflexivity).
    reflexivity. }
  split; [exact E|]. rewrite E. intros H.
  apply (f_equal (fun r => length (trace r.2))) in H.
  rewrite os_rename_trace in H. simpl in H. lia.
Qed.



(** C4 at scenario 3: [notes/2023-01-01-draft.md]. *)
Lemma wrong_prefix_rejected_scenario_3 :
  let w := site Unix june_15 {[ hello_world := str "text" ]} in
  roll_post (U := basic_latin)
    [str "roll_post.py"; str "notes/2023-01-01-draft.md"] w
  = (Raise AttributeError, w).
Proof.
  apply (@wrong_prefix_rejected basic_latin small_system).
  intros [k Hk]. vm_compute in Hk. discriminate Hk.
Defined.

(** C5 at scenario 2: the title [a-b-c]. *)
Lemma title_passed_through_scenario_2 :
  let w := site Unix june_15 {[ str "_posts/2023-01-01-a-b-c.md" := [] ]} in
  exists title,
    title = str "a-b-c" /\
    roll_post (U := basic_latin)
      [str "roll_post.py"; str "_posts/2023-01-01-a-b-c.md"] w
    = os_rename (str "_posts/2023-01-01-a-b-c.md")
        (str "_posts/" ++ strftime_Ymd june_15 ++ str "-" ++ title ++ str ".md") w.
Proof.
  intros w.
  destruct (@title_passed_through basic_latin small_system
              (str "roll_post.py")
              (str "_posts/2023-01-01-a-b-c.md") []
              {| matched := str "_posts/2023-01-01-a-b-c.md";
                 captures := [(Some "title"%string, str "a-b-c");
                              (None, str "01"); (None, str "01");
                              (None, str "2023")] |} w)
    as (title & Ht & _ & _ & Hrun).
  - vm_compute. reflexivity.
  - exists title. split; [|exact Hrun].
    vm_compute in Ht. injection Ht as <-. vm_compute. reflexivity.
Defined.

(** C6 on the post of scenario 1, rolled on 15 and on 16 June 2024. *)
Lemma different_days_different_names_june :
  exists n1 n2,
    trace (roll_post (U := basic_latin) [str "roll_post.py"; hello_world]
             (site Unix june_15 ∅)).2 = [SysRename hello_world n1] /\
    trace (roll_post (U := basic_latin) [str "roll_post.py"; hello_world]
             (site Unix june_16 ∅)).2 = [SysRename hello_world n2] /\
    n1 <> n2.
Proof.
  apply (@different_days_different_names basic_latin small_system
           (str "roll_post.py") hello_world []
           {| matched := hello_world;
              captures := [(Some "title"%string, str "hello-world");
                           (None, str "01"); (None, str "01");
                           (None, str "2023")] |}
           (site Unix june_15 ∅) (site Unix june_16 ∅)).
  - vm_compute. reflexivity.
  - unfold date_ok. simpl. lia.
  - unfold date_ok. simpl. lia.
  - discriminate.
Defined.

(** C8 when the script is started with its own name only. *)
Lemma no_argument_bare :
  roll_post (U := basic_latin) [str "roll_post.py"]
    (site Unix june_15 {[ hello_world := [] ]})
  = (Raise IndexError, site Unix june_15 {[ hello_world := [] ]}).
Proof.
  apply (@no_argument basic_latin small_system). simpl. lia.
Defined.

(** C9 on two paths of the same title, one of them dated in month 99: both
    are renamed to [_posts/2024-06-15-draft.md]. *)
Lemma old_date_ignored_month_99 :
  rename_target <$>
    trace (roll_post (U := basic_latin)
             [str "roll_post.py"; str "_posts/2023-01-01-draft.md"]
             (site Unix june_15 ∅)).2 =
  rename_target <$>
    trace (roll_post (U := basic_latin)
             [str "roll_post.py"; str "_posts/1999-99-31-draft.md"]
             (site Unix june_15 ∅)).2 /\
  rename_target <$>
    trace (roll_post (U := basic_latin)
             [str "roll_post.py"; str "_posts/1999-99-31-draft.md"]
             (site Unix june_15 ∅)).2 =
  [str "_posts/2024-06-15-draft.md"].
Proof.
  split; [|vm_compute; reflexivity].
  apply (@old_date_ignored basic_latin small_system (str "roll_post.py") []
           (str "2023") (str "01") (str "01")
           (str "1999") (str "99") (str "31") (str "draft.md")
           (site Unix june_15 ∅));
    apply ascii_digits; reflexivity.
Defined.

(** C10 on [_posts/2023-01-01-.md]. *)
Lemma empty_title_accepted_2023 :
  roll_post (U := basic_latin)
    [str "roll_post.py"; str "_posts/2023-01-01-.md"]
    (site Unix june_15 ∅)
  = os_rename (str "_posts/2023-01-01-.md") (str "_posts/2024-06-15-.md")
      (site Unix june_15 ∅).
Proof.
  refine (proj2 (@empty_title_accepted basic_latin small_system
                   (str "roll_post.py") []
                   (str "2023") (str "01") (str "01") (site Unix june_15 ∅)
                   _ _ _));
    apply ascii_digits; reflexivity.
Defined.

(** ** Further properties of the script *)

Section Greedy.
Context {U : UnicodeData}.

(** A star that fails has tried every split of the input. *)
Lemma star_None {R} cs s (k : list N -> list N -> option R) :
  star cs s k = None ->
  forall m s', s = m ++ s' -> Forall (fun c => accepts cs c = true) m ->
               k m s' = None.
Proof.
  revert k. induction s as [|c s IH]; intros k H m s' E Hm; simpl in H.
  - symmetry in E. apply app_eq_nil in E as [-> ->]. exact H.
  - destruct m as [|c' m]; simpl in E.
    + subst s'. destruct (accepts cs c); [|exact H].
      destruct (star cs s _); [discriminate|exact H].
    + injection E as <- ->. inversion_clear Hm as [|? ? Hc Hm'].
      rewrite Hc in H.
      destruct (star cs (m ++ s') (fun m0 rest => k (c :: m0) rest)) eqn:Hs;
        [discriminate|].
      exact (IH (fun m0 rest => k (c :: m0) rest) Hs m s' eq_refl Hm').
Qed.

(** A star that succeeds has taken the longest text on which the rest of
    the pattern succeeds. *)
Lemma star_Some_max {R} cs s (k : list N -> list N -> option R) r :
  star cs s k = Some r ->
  exists m s',
    s = m ++ s' /\ Forall (fun c => accepts cs c = true) m /\
    k m s' = Some r /\
    forall m' s'', s = m' ++ s'' ->
      Forall (fun c => accepts cs c = true) m' ->
      (length m < length m')%nat -> k m' s'' = None.
Proof.
  revert k. induction s as [|c s IH]; intros k H; simpl in H.
  - exists [], []. repeat split; auto.
    intros m' s'' E _ L. symmetry in E. apply app_eq_nil in E as [-> _].
    simpl in L. lia.
  - destruct (accepts cs c) eqn:Hc.
    + destruct (star cs s (fun m rest => k (c :: m) rest)) as [r'|] eqn:Hs.
      * injection H as ->.
        apply (IH (fun m rest => k (c :: m) rest)) in Hs
          as (m & s' & -> & Hm & Hk & Hmax).
        exists (c :: m), s'. repeat split; auto.
        intros m' s'' E Hm' L. destruct m' as [|c' m']; [simpl in L; lia|].
        simpl in E. injection E as <- E. inversion_clear Hm'.
        apply Hmax; auto. simpl in L. lia.
      * exists [], (c :: s). repeat split; auto.
        intros m' s'' E Hm' L. destruct m' as [|c' m']; [simpl in L; lia|].
        simpl in E. injection E as <- ->. inversion_clear Hm'.
        exact (star_None cs _ (fun m rest => k (c :: m) rest) Hs m' s''
                 eq_refl ltac:(assumption)).
    + exists [], (c :: s). repeat split; auto.
      intros m' s'' E Hm' L. destruct m' as [|c' m']; [simpl in L; lia|].
      simpl in E. injection E as <- ->. inversion_clear Hm'. congruence.
Qed.

Lemma not_newline_Forall (t : list N) :
  newline ∉ t <-> Forall (fun c => accepts AnyChar c = true) t.
Proof.
  rewrite Forall_forall. split.
  - intros H x Hx. apply accepts_AnyChar. intros ->. contradiction.
  - intros H Hin. apply H, accepts_AnyChar in Hin. contradiction.
Qed.

Lemma after_title_Some Y M D t c tail :
  c <> newline ->
  is_Some (after_title Y M D t (c :: str "md" ++ tail)).
Proof.
  intros Hc. unfold after_title.
  apply accepts_AnyChar in Hc. rewrite Hc, strip_prefix_app. eauto.
Qed.

(** The rest of a dated path is determined by the path. *)
Lemma dated_inj_rest Y M D rest Y' M' D' rest' :
  length Y = length Y' -> length M = length M' -> length D = length D' ->
  dated Y M D rest = dated Y' M' D' rest' -> rest = rest'.
Proof.
  intros LY LM LD H. unfold dated in H. apply app_inv_head in H.
  apply app_inj_1 in H as [_ H]; [|exact LY]. apply app_inv_head in H.
  apply app_inj_1 in H as [_ H]; [|exact LM]. apply app_inv_head in H.
  apply app_inj_1 in H as [_ H]; [|exact LD]. apply app_inv_head in H.
  exact H.
Qed.

(** What [%Y-%m-%d] prints is three groups of digits for [\d]. *)
Lemma zero_padded_digit_group w n : digit_group w (zero_padded w n).
Proof.
  split; [apply zero_padded_length|].
  revert n. induction w as [|w IH]; intros n; simpl; [constructor|].
  apply Forall_app. split; [apply IH|]. constructor; [|constructor].
  assert (n mod 10 < 10) as Hlt by (apply N.mod_lt; discriminate).
  unfold digit_char. generalize dependent (n mod 10). intros x Hlt.
  rewrite decimal_digit_ascii by lia.
  unfold ascii_digit. apply andb_true_iff. split; apply N.leb_le; lia.
Qed.

Lemma new_post_dated d title :
  new_post d title =
    dated (zero_padded 4 (year d)) (zero_padded 2 (month d))
      (zero_padded 2 (day d)) (title ++ str ".md").
Proof.
  unfold new_post, dated, strftime_Ymd. rewrite <- !app_assoc. reflexivity.
Qed.

Lemma app_eq_prefix (a b c d : list N) :
  a ++ b = c ++ d -> (length a <= length c)%nat -> a `prefix_of` c.
Proof.
  revert c. induction a as [|x a IH]; intros c E L; [apply prefix_nil|].
  destruct c as [|y c]; [simpl in L; lia|].
  simpl in E. injection E as <- E. apply prefix_cons, (IH c E).
  simpl in L. lia.
Qed.

(** X1: the paths the pattern accepts are exactly those made of [_posts/],
    three groups of four, two and two digits each followed by [-], a text
    without a newline, one more character that is not a newline, [md], and
    anything after. *)
Theorem accepted_paths post :
  is_Some (re_match pattern post) <->
  exists Y M D t c tail,
    post = dated Y M D (t ++ c :: str "md" ++ tail) /\
    digit_group 4 Y /\ digit_group 2 M /\ digit_group 2 D /\
    (newline ∉ t) /\ c <> newline.
Proof.
  split.
  - intros [m H].
    apply re_match_Some in H
      as (Y & M & D & t & c & tail & -> & HY & HM & HD & Ht & Hc & _).
    exists Y, M, D, t, c, tail. repeat (split; [assumption || reflexivity|]).
    split; [|exact Hc]. intros Hin.
    rewrite Forall_forall in Ht. exact (Ht _ Hin eq_refl).
  - intros (Y & M & D & t & c & tail & -> & HY & HM & HD & Ht & Hc).
    rewrite re_match_dated by assumption.
    destruct (star AnyChar _ _) as [m|] eqn:Hs; [eauto|].
    apply not_newline_Forall in Ht.
    pose proof (star_None _ _ _ Hs t _ eq_refl Ht) as Hk.
    destruct (after_title_Some Y M D t c tail Hc) as [x Hx]. congruence.
Qed.

(** X2: the title is taken greedily: any other way to read the path as a
    newline-free text, a character that is not a newline and [md] gives a
    text that is a prefix of the title captured. *)
Theorem title_is_longest post m title Y M D t c tail :
  re_match pattern post = Some m ->
  groupdict m !! "title"%string = Some title ->
  post = dated Y M D (t ++ c :: str "md" ++ tail) ->
  length Y = 4%nat -> length M = 2%nat -> length D = 2%nat ->
  newline ∉ t -> c <> newline ->
  t `prefix_of` title.
Proof.
  intros Hm Htitle -> LY LM LD Ht Hc.
  destruct (re_match_Some_dated _ _ Hm)
    as (Y0 & M0 & D0 & rest & E & HY0 & HM0 & HD0).
  assert (rest = t ++ c :: str "md" ++ tail) as ->.
  { symmetry. eapply dated_inj_rest; [| | |exact E].
    - destruct HY0 as [-> _]. exact LY.
    - destruct HM0 as [-> _]. exact LM.
    - destruct HD0 as [-> _]. exact LD. }
  rewrite E in Hm. rewrite re_match_dated in Hm by assumption.
  apply star_Some_max in Hm as (t0 & s0 & Es & _ & Hk & Hmax).
  assert (title = t0) as ->.
  { unfold after_title in Hk.
    destruct s0 as [|c0 s0]; [discriminate|].
    destruct (accepts AnyChar c0); [|discriminate].
    destruct (strip_prefix (str "md") s0); [|discriminate].
    injection Hk as <-. rewrite groupdict_title in Htitle. congruence. }
  destruct (Nat.le_gt_cases (length t) (length t0)) as [L|L].
  - exact (app_eq_prefix _ _ _ _ Es L).
  - apply not_newline_Forall in Ht.
    pose proof (Hmax t _ eq_refl Ht L) as Hnone.
    destruct (after_title_Some Y0 M0 D0 t c tail Hc) as [x Hx]. congruence.
Qed.

End Greedy.

Section Behaviour.
Context {U : UnicodeData} {K : System}.

(** X3: which exception ends a run.  [IndexError] exactly when [sys.argv]
    has no entry 1, [AttributeError] exactly when entry 1 does not match the
    pattern, and never [KeyError]: a match always has its group [title]. *)
Theorem exception_raised argv w :
  ((roll_post argv w).1 = Raise IndexError <-> (length argv <= 1)%nat) /\
  ((roll_post argv w).1 = Raise AttributeError <->
     exists post, argv !! 1%nat = Some post /\ re_match pattern post = None) /\
  (roll_post argv w).1 <> Raise KeyError.
Proof.
  destruct argv as [|prog [|post args]].
  - rewrite roll_post_no_argument by (simpl; lia). simpl.
    repeat split; try discriminate; try lia. intros (? & ? & _). discriminate.
  - rewrite roll_post_no_argument by (simpl; lia). simpl.
    repeat split; try discriminate; try lia. intros (? & ? & _). discriminate.
  - rewrite roll_post_run.
    destruct (re_match pattern post) as [m|] eqn:Hm.
    + destruct (re_match_groupdict _ _ Hm) as [title ->].
      rewrite os_rename_result.
      destruct (rename_on _ _ _ _) as [d'|e] eqn:Hr.
      * repeat split; try discriminate; simpl; try lia.
        intros (p & [= <-] & ?). congruence.
      * apply rename_raises in Hr as ->.
        repeat split; try discriminate; simpl; try lia.
        intros (p & [= <-] & ?). congruence.
    + simpl. repeat split; try discriminate; try lia. eauto.
Qed.

(** X7: the name a run gives is again a path the script accepts, with the
    same title: run on it under any clock, the script renames it to the same
    title under that clock's date. *)
Theorem rolled_name_rolls_again prog prog' post args args' m title d w :
  re_match pattern post = Some m ->
  groupdict m !! "title"%string = Some title ->
  trace (roll_post (prog :: post :: args) w).2 =
    SysRename post (new_post (clock w) title) :: trace w /\
  forall w',
    roll_post (prog' :: new_post d title :: args') w' =
      os_rename (new_post d title) (new_post (clock w') title) w'.
Proof.
  intros Hm Ht. split.
  - rewrite roll_post_run, Hm, Ht. apply os_rename_trace.
  - intros w'. rewrite new_post_dated at 1 2.
    apply roll_post_title; try apply zero_padded_digit_group.
    apply re_match_Some in Hm
      as (Y & M & D & t & c & tl & _ & _ & _ & _ & Hn & _ & ->).
    rewrite groupdict_title in Ht. injection Ht as <-.
    intros Hin. rewrite Forall_forall in Hn. exact (Hn _ Hin eq_refl).
Qed.


(** Only entry 1 of [sys.argv] is read: the name the script was started
    under and any further argument change nothing. *)
Theorem only_first_argument_read prog prog' post args w :
  roll_post (prog :: post :: args) w = roll_post [prog'; post] w.
Proof. rewrite !roll_post_run. reflexivity. Qed.

End Behaviour.

(** ** The further properties, run on the model *)

(** X2 on [_posts/2023-01-01-a.md.md]: the title is [a.md], not [a]. *)
Lemma title_is_longest_twice_md :
  groupdict <$> @re_match basic_latin pattern (str "_posts/2023-01-01-a.md.md")
    = Some {[ "title"%string := str "a.md" ]} /\
  str "a" `prefix_of` str "a.md".
Proof.
  split; [vm_compute; reflexivity|].
  apply (@title_is_longest basic_latin (str "_posts/2023-01-01-a.md.md")
           {| matched := str "_posts/2023-01-01-a.md.md";
              captures := [(Some "title"%string, str "a.md");
                           (None, str "01"); (None, str "01");
                           (None, str "2023")] |}
           (str "a.md") (str "2023") (str "01") (str "01")
           (str "a") 46 (str ".md")).
  - vm_compute. reflexivity.
  - vm_compute. reflexivity.
  - reflexivity.
  - reflexivity.
  - reflexivity.
  - reflexivity.
  - apply not_newline_in. reflexivity.
  - discriminate.
Defined.

(** X7 on the post of scenario 1: rolled on 15 June, its new name is rolled
    again on 16 June and keeps its title. *)
Lemma rolled_name_rolls_again_june :
  roll_post (U := basic_latin) [str "roll_post.py"; hello_world_rolled]
    (site Windows june_16 {[ hello_world_rolled := str "text" ]})
  = os_rename hello_world_rolled (str "_posts/2024-06-16-hello-world.md")
      (site Windows june_16 {[ hello_world_rolled := str "text" ]}).
Proof.
  refine (proj2 (@rolled_name_rolls_again basic_latin small_system
                   (str "roll_post.py") (str "roll_post.py") hello_world [] []
                   hello_world_match (str "hello-world") june_15
                   (site Unix june_15 {[ hello_world := str "text" ]})
                   _ _)
            (site Windows june_16
               {[ hello_world_rolled := str "text" ]})).
  - vm_compute. reflexivity.
  - vm_compute. reflexivity.
Defined.

